(** * The vector index contract of langchain_postgres/indexer/vectorstore_v2.py

    A shallow embedding of the abstract class [VectorIndex] (its default,
    derived operations over the primitives a backend supplies) and of the
    in-memory [DictIndex] backend given in the class docstring, followed by
    the properties of both.

    Python values appear as follows.
    - An exception is a constructor of [exn]; a call returns [Ok v] or
      [Raise e].
    - A generator is the finite trace [lazy_seq] of what it does when it is
      resumed: yield a value, stop, or raise.
    - An iterable is a list, a generator (both answer [__iter__]) or an
      asynchronous generator (which answers [__aiter__] only).
    - A dict with string keys is a [gmap string _].
    - [warnings.warn] appends to a log carried next to the backend state. *)

From stdpp Require Import gmap strings list fin_maps.

Open Scope string_scope.
Open Scope list_scope.

(** ** Python values and effects *)

Module Py.

Inductive exn : Type :=
| ValueError (msg : string)
| NameError (name : string)
| TypeError (msg : string)
| AttributeError (attr : string)
| KeyError (key : string)
| BackendError (msg : string).

Inductive Result (A : Type) : Type :=
| Ok (a : A)
| Raise (e : exn).
Arguments Ok {A} a.
Arguments Raise {A} e.

(** What a generator does, resumption by resumption. *)
Inductive lazy_seq (A : Type) : Type :=
| Stop
| Yield (a : A) (rest : lazy_seq A)
| Throw (e : exn).
Arguments Stop {A}.
Arguments Yield {A} a rest.
Arguments Throw {A} e.

Inductive iterable (A : Type) : Type :=
| PyList (l : list A)
| Generator (s : lazy_seq A)
| AsyncGenerator (s : lazy_seq A).
Arguments PyList {A} l.
Arguments Generator {A} s.
Arguments AsyncGenerator {A} s.

Fixpoint of_list {A} (l : list A) : lazy_seq A :=
  match l with
  | [] => Stop
  | a :: l' => Yield a (of_list l')
  end.

(** [iter(x)]: the protocol behind [for], [list] and [zip]. *)
Definition iter {A} (x : iterable A) : Result (lazy_seq A) :=
  match x with
  | PyList l => Ok (of_list l)
  | Generator s => Ok s
  | AsyncGenerator _ => Raise (TypeError "object is not iterable")
  end.

(** [aiter(x)]: the protocol behind [async for]. *)
Definition aiter {A} (x : iterable A) : Result (lazy_seq A) :=
  match x with
  | AsyncGenerator s => Ok s
  | PyList _ | Generator _ =>
      Raise (TypeError "'async for' requires an object with __aiter__ method")
  end.

(** Truth value of an iterable: a list is false when empty, a generator
    object is always true. *)
Definition truthy {A} (x : iterable A) : bool :=
  match x with
  | PyList [] => false
  | _ => true
  end.

(** The loop [for doc in s: docs.append(doc)], ending in [docs]. *)
Fixpoint drain {A} (s : lazy_seq A) (docs : list A) : Result (list A) :=
  match s with
  | Stop => Ok docs
  | Yield a rest => drain rest (docs ++ [a])
  | Throw e => Raise e
  end.

(** [list(x)] *)
Definition py_list {A} (x : iterable A) : Result (list A) :=
  match iter x with
  | Ok s => drain s []
  | Raise e => Raise e
  end.

(** [docs = []], then [async for doc in x: docs.append(doc)], then [docs] *)
Definition async_for_append {A} (x : iterable A) : Result (list A) :=
  match aiter x with
  | Ok s => drain s []
  | Raise e => Raise e
  end.

(** The values of type [Any] that the keyword arguments carry. *)
#[warnings="-register-all"]
Inductive pyval : Type :=
| VNone
| VBool (b : bool)
| VInt (z : Z)
| VStr (s : string)
| VList (l : list pyval).

Record StructuredQuery : Type := { query : string; limit : option nat }.

(** [Union[StructuredQuery, Dict[str, Any], List[Dict[str, Any]], None]],
    [None] being the [None] of [option Filter]. *)
Inductive Filter : Type :=
| FQuery (q : StructuredQuery)
| FDict (d : gmap string pyval)
| FList (l : list (gmap string pyval)).

Inductive kwvalue : Type :=
| KwVal (v : pyval)
| KwFilter (f : Filter).

(** [if filters:] an object without [__bool__] and [__len__] is true, a
    dict or a list is true when it has an element. *)
Definition filter_truthy (f : Filter) : bool :=
  match f with
  | FQuery _ => true
  | FDict d => negb (Nat.eqb (size d) 0)
  | FList l => negb (Nat.eqb (length l) 0)
  end.

Definition dict_truthy {V} (d : gmap string V) : bool := negb (Nat.eqb (size d) 0).

Record Warning : Type :=
  UserWarning { message : string; received : gmap string kwvalue }.

Record DeleteResponse : Type :=
  { succeeded : list string; failed : list string }.

Record UpsertResponse : Type :=
  { upsert_succeeded : list string; upsert_failed : list string }.

(** A call: it sees the backend state, and leaves a result, a state and
    the warnings it emitted. *)
Record outcome (St A : Type) : Type :=
  Outcome { result : Result A; final : St; warned : list Warning }.
Arguments Outcome {St A} result final warned.
Arguments result {St A} o.
Arguments final {St A} o.
Arguments warned {St A} o.

Definition M (St A : Type) : Type := St -> outcome St A.

Definition ret {St A} (a : A) : M St A := fun st => Outcome (Ok a) st [].

Definition raise {St A} (e : exn) : M St A := fun st => Outcome (Raise e) st [].

Definition warn {St} (w : Warning) : M St unit := fun st => Outcome (Ok tt) st [w].

Definition lift {St A} (r : Result A) : M St A := fun st => Outcome r st [].

Definition bind {St A B} (m : M St A) (k : A -> M St B) : M St B :=
  fun st =>
    let o := m st in
    match result o with
    | Ok a =>
        let o' := k a (final o) in
        Outcome (result o') (final o') (warned o ++ warned o')
    | Raise e => Outcome (Raise e) (final o) (warned o)
    end.

(** [try: body / except Exception: handler / else: orelse] *)
Definition try_except_else {St A B}
    (body : M St A) (handler : exn -> M St B) (orelse : A -> M St B) : M St B :=
  fun st =>
    let o := body st in
    let o' := match result o with
              | Ok a => orelse a (final o)
              | Raise e => handler e (final o)
              end in
    Outcome (result o') (final o') (warned o ++ warned o').

End Py.

Import Py.

Notation "'let!' x ':=' m 'in' k" := (bind m (fun x => k))
  (at level 10, x name, m at level 100, k at level 200, only parsing).

(** ** The contract: class [VectorIndex] *)

Module VectorIndex.

(** The methods of [self] that the default bodies call. The first two are
    abstract in the class. [adelete_by_ids] is called by [adelete] and
    is defined nowhere in the class: the attribute exists only on a backend
    that defines it itself. [upsert_by_vector], the third abstract method,
    is called by no default body. *)
Class Backend (Document St : Type) : Type := {
  delete_by_ids : iterable string -> M St DeleteResponse;
  lazy_get_by_ids : iterable string -> M St (iterable Document);
  adelete_by_ids : option (iterable string -> M St DeleteResponse)
}.

Abbreviation Kwargs := (gmap string kwvalue).

Definition ids_only_message : string :=
  "Only deletion by ids is supported for this integration, all other arguments are ignored. Received kwargs=".

Section Defaults.
Context {Document St : Type} `{!Backend Document St}.

(** [await run_in_executor(None, func, arg)]: the awaiting task resumes
    with what [func(arg)] returned or raised. *)
Definition run_in_executor {A B} (func : A -> M St B) (arg : A) : M St B :=
  func arg.

(** Evaluating a name that is no parameter or local of the function,
    no global of the module and no builtin. *)
Definition unbound_name {A} (name : string) : M St A :=
  raise (NameError name).

(** [self.adelete_by_ids] *)
Definition getattr_adelete_by_ids : M St (iterable string -> M St DeleteResponse) :=
  match adelete_by_ids with
  | Some method => ret method
  | None => raise (AttributeError "adelete_by_ids")
  end.

(** [if filters: kwargs = {"filters": filters, **kwargs}] *)
Definition fold_filters (filters : option Filter) (kwargs : Kwargs) : Kwargs :=
  match filters with
  | Some f =>
      if filter_truthy f then kwargs ∪ {[ "filters" := KwFilter f ]} else kwargs
  | None => kwargs
  end.

(** [if kwargs: warnings.warn(...)] *)
Definition warn_ignored (kwargs : Kwargs) : M St unit :=
  if dict_truthy kwargs then warn (UserWarning ids_only_message kwargs)
  else ret tt.

Definition alazy_get_by_ids (ids : iterable string) : M St (iterable Document) :=
  run_in_executor lazy_get_by_ids ids.

Definition get_by_ids (ids : iterable string) : M St (list Document) :=
  let! it := lazy_get_by_ids ids in
  lift (py_list it).

Definition aget_by_ids (ids : iterable string) : M St (list Document) :=
  let! it := alazy_get_by_ids ids in
  lift (async_for_append it).

(** The signature has [filters] and [**kwargs] only; the body reads
    [ids]. An [ids=...] of the caller lands in [kwargs]. *)
Definition delete_by_filter (filters : option Filter) (kwargs : Kwargs)
  : M St DeleteResponse :=
  let! ids := unbound_name "ids" in
  match ids with
  | None => raise (ValueError "Must provide ids to delete.")
  | Some ids =>
      let kwargs := fold_filters filters kwargs in
      let! _ := warn_ignored kwargs in
      delete_by_ids ids
  end.

Definition adelete (ids : option (iterable string)) (filters : option Filter)
    (kwargs : Kwargs) : M St DeleteResponse :=
  match ids with
  | None => raise (ValueError "Must provide ids to delete.")
  | Some ids =>
      let kwargs := fold_filters filters kwargs in
      let! _ := warn_ignored kwargs in
      let! method := getattr_adelete_by_ids in
      method ids
  end.

Definition lazy_get (ids : option (iterable string)) (filters : option Filter)
    (kwargs : Kwargs) : M St (iterable Document) :=
  match ids with
  | None => raise (ValueError "Must provide ids to get.")
  | Some ids =>
      let kwargs := fold_filters filters kwargs in
      let! _ := warn_ignored kwargs in
      lazy_get_by_ids ids
  end.

Definition alazy_get (ids : option (iterable string)) (filters : option Filter)
    (kwargs : Kwargs) : M St (iterable Document) :=
  match ids with
  | None => raise (ValueError "Must provide ids to get.")
  | Some ids =>
      let kwargs := fold_filters filters kwargs in
      let! _ := warn_ignored kwargs in
      alazy_get_by_ids ids
  end.

Definition get (ids : option (iterable string)) (filters : option Filter)
    (kwargs : Kwargs) : M St (list Document) :=
  let! it := lazy_get ids filters kwargs in
  lift (py_list it).

Definition aget (ids : option (iterable string)) (filters : option Filter)
    (kwargs : Kwargs) : M St (list Document) :=
  let! it := alazy_get ids filters kwargs in
  lift (async_for_append it).

End Defaults.

End VectorIndex.

(** ** The backend of the class docstring: [DictIndex] *)

Module DictIndex.

Section Store.
Context {Document : Type}.

(** The identifiers that [uuid4_generator()] yields, by position. *)
Variable uuid4 : nat -> string.

(** [zip(ids, documents)]: an element of [ids] is taken first. *)
Fixpoint zip_seq {A B} (a : lazy_seq A) (b : lazy_seq B) : lazy_seq (A * B) :=
  match a with
  | Stop => Stop
  | Throw e => Throw e
  | Yield x a' =>
      match b with
      | Stop => Stop
      | Throw e => Throw e
      | Yield y b' => Yield (x, y) (zip_seq a' b')
      end
  end.

(** [zip(uuid4_generator(), documents)], from the [n]-th identifier on. *)
Fixpoint zip_uuid4 {B} (n : nat) (b : lazy_seq B) : lazy_seq (string * B) :=
  match b with
  | Stop => Stop
  | Throw e => Throw e
  | Yield y b' => Yield (uuid4 n, y) (zip_uuid4 (S n) b')
  end.

(** [self.store[id_] = doc] *)
Definition setitem (id_ : string) (doc : Document) : M (gmap string Document) unit :=
  fun store => Outcome (Ok tt) (<[id_ := doc]> store) [].

(** [del self.store[id_]] *)
Definition delitem (id_ : string) : M (gmap string Document) unit :=
  fun store =>
    match store !! id_ with
    | Some _ => Outcome (Ok tt) (delete id_ store) []
    | None => Outcome (Raise (KeyError id_)) store []
    end.

Fixpoint upsert_loop (pairs : lazy_seq (string * Document)) (succeeded : list string)
  : M (gmap string Document) UpsertResponse :=
  match pairs with
  | Stop => ret {| upsert_succeeded := succeeded; upsert_failed := [] |}
  | Throw e => raise e
  | Yield (id_, doc) rest =>
      let! _ := setitem id_ doc in
      upsert_loop rest (succeeded ++ [id_])
  end.

(** [ids or uuid4_generator()] *)
Inductive id_source : Type :=
| Given (ids : iterable string)
| Uuid4Generator.

Definition ids_or_uuid4 (ids : option (iterable string)) : id_source :=
  match ids with
  | Some given => if truthy given then Given given else Uuid4Generator
  | None => Uuid4Generator
  end.

(** [zip(ids, documents)] asks [ids] for its iterator, then [documents]. *)
Definition py_zip (ids : id_source) (documents : iterable Document)
  : Result (lazy_seq (string * Document)) :=
  match ids with
  | Given given =>
      match iter given with
      | Raise e => Raise e
      | Ok s =>
          match iter documents with
          | Raise e => Raise e
          | Ok docs => Ok (zip_seq s docs)
          end
      end
  | Uuid4Generator =>
      match iter documents with
      | Raise e => Raise e
      | Ok docs => Ok (zip_uuid4 0 docs)
      end
  end.

Definition upsert (documents : iterable Document) (ids : option (iterable string))
  : M (gmap string Document) UpsertResponse :=
  let ids := ids_or_uuid4 ids in
  let! pairs := lift (py_zip ids documents) in
  upsert_loop pairs [].

Fixpoint delete_loop (ids : lazy_seq string) (succeeded failed : list string)
  : M (gmap string Document) DeleteResponse :=
  match ids with
  | Stop => ret {| succeeded := succeeded; failed := failed |}
  | Throw e => raise e
  | Yield id_ rest =>
      let! lists :=
        try_except_else (delitem id_)
          (fun _ => ret (succeeded, failed ++ [id_]))
          (fun _ => ret (succeeded ++ [id_], failed)) in
      delete_loop rest lists.1 lists.2
  end.

Definition delete_by_ids (ids : iterable string)
  : M (gmap string Document) DeleteResponse :=
  let! s := lift (iter ids) in
  delete_loop s [] [].

(** The body of the generator: [for id in ids: yield self.store[id]]. *)
Fixpoint yield_each (store : gmap string Document) (ids : lazy_seq string)
  : lazy_seq Document :=
  match ids with
  | Stop => Stop
  | Throw e => Throw e
  | Yield id rest =>
      match store !! id with
      | Some doc => Yield doc (yield_each store rest)
      | None => Throw (KeyError id)
      end
  end.

(** Calling the generator function runs nothing of its body: [iter(ids)]
    is part of the trace. The trace is the one against the store of the
    call: the default operations drain the generator, or hand it on,
    with no write to the store in between. *)
Definition lazy_get_by_ids (ids : iterable string)
  : M (gmap string Document) (iterable Document) :=
  fun store =>
    Outcome (Ok (Generator (match iter ids with
                            | Ok s => yield_each store s
                            | Raise e => Throw e
                            end))) store [].

End Store.

(** [DictIndex] as the backend of the contract's default bodies. *)
#[global] Instance backend {Document : Type}
  : VectorIndex.Backend Document (gmap string Document) := {|
  VectorIndex.delete_by_ids := delete_by_ids;
  VectorIndex.lazy_get_by_ids := lazy_get_by_ids;
  VectorIndex.adelete_by_ids := None
|}.

End DictIndex.

(** ** The words of the specification *)

Module Spec.

(** The documents a lazy sequence produces, first to last. *)
Fixpoint yielded {A} (s : lazy_seq A) : list A :=
  match s with
  | Yield a rest => a :: yielded rest
  | Stop | Throw _ => []
  end.

(** How a lazy sequence ends: exhausted, or with an error. *)
Fixpoint ending {A} (s : lazy_seq A) : option exn :=
  match s with
  | Stop => None
  | Yield _ rest => ending rest
  | Throw e => Some e
  end.

(** The [i]-th document a lazy sequence produces. *)
Fixpoint nth_yield {A} (s : lazy_seq A) (i : nat) : option A :=
  match s, i with
  | Yield a _, 0 => Some a
  | Yield _ rest, S j => nth_yield rest j
  | _, _ => None
  end.

(** "Collects the lazy sequence into a finite ordered sequence": all that
    the sequence produces, in the order of production, when it runs to
    its end; its error otherwise. *)
Definition materialize {A} (x : iterable A) : Result (list A) :=
  match iter x with
  | Raise e => Raise e
  | Ok s =>
      match ending s with
      | None => Ok (yielded s)
      | Some e => Raise e
      end
  end.

(** "Every submitted identifier appears in exactly one of the two sets;
    the sets are disjoint; union covers exactly the input identifiers." *)
Definition partitions (submitted succeeded failed : list string) : Prop :=
  (∀ id, id ∈ submitted ↔ id ∈ succeeded ∨ id ∈ failed)
  ∧ (∀ id, ¬ (id ∈ succeeded ∧ id ∈ failed)).

(** The same call, with [ws] emitted before it. *)
Definition after_warnings {St A} (ws : list Warning) (o : outcome St A)
  : outcome St A :=
  Outcome (result o) (final o) (ws ++ warned o).

(** "If any remaining keyword arguments (including a folded-in filter) are
    non-empty, the default implementation emits a non-fatal warning":
    the warnings of the default policy, as a function of the arguments. *)
Definition policy_warnings (filters : option Filter) (kwargs : gmap string kwvalue)
  : list Warning :=
  let remaining :=
    match filters with
    | Some f =>
        if filter_truthy f then kwargs ∪ {[ "filters" := KwFilter f ]} else kwargs
    | None => kwargs
    end in
  if decide (remaining = ∅) then []
  else [UserWarning VectorIndex.ids_only_message remaining].

(** The warning is emitted exactly when the remaining keyword arguments
    are non-empty: what the specification says of a default filtered
    operation [op] on a call with the arguments [ids], [filters] and
    [kwargs]. *)
Definition warns_iff_remaining {St A}
    (op : option (iterable string) → option Filter → gmap string kwvalue → M St A)
    (ids : option (iterable string)) (filters : option Filter)
    (kwargs : gmap string kwvalue) (st : St) : Prop :=
  warned (op ids filters kwargs st) ≠ [] ↔ policy_warnings filters kwargs ≠ [].

End Spec.

Import VectorIndex Spec.

(** ** Concrete stores, with strings for documents *)

Module Examples.

Definition uuid4 (n : nat) : string := "generated".

(** The store after [upsert(["A","B","C"], ids=["a","b","c"])]. *)
Definition store_abc : gmap string string :=
  final (DictIndex.upsert uuid4 (PyList ["A"; "B"; "C"])
           (Some (PyList ["a"; "b"; "c"])) ∅).

(** The store after [upsert(["one","two"], ids=["1","2"])]. *)
Definition store_12 : gmap string string :=
  final (DictIndex.upsert uuid4 (PyList ["one"; "two"])
           (Some (PyList ["1"; "2"])) ∅).

(** The store after [upsert(["X"], ids=["x"])]. *)
Definition store_x : gmap string string :=
  final (DictIndex.upsert uuid4 (PyList ["X"]) (Some (PyList ["x"])) ∅).

Definition filter_kv : Filter := FDict {[ "k" := VStr "v" ]}.

End Examples.

Import Examples.

(** ** Failing inputs and a backend with an asynchronous primitive *)

Module Scenarios.

(** A generator of documents that produces one document and raises. *)
Definition failing_documents : lazy_seq string :=
  Yield "one" (Throw (BackendError "connection lost")).

(** A generator of identifiers that produces one identifier and raises. *)
Definition failing_ids : lazy_seq string :=
  Yield "1" (Throw (BackendError "connection lost")).

(** [DictIndex] with [lazy_get_by_ids] written as an asynchronous
    generator. *)
Definition async_backend : Backend string (gmap string string) := {|
  VectorIndex.delete_by_ids := DictIndex.delete_by_ids;
  VectorIndex.lazy_get_by_ids := fun ids store =>
    Outcome (Ok (AsyncGenerator (match iter ids with
                                 | Ok s => DictIndex.yield_each store s
                                 | Raise e => Throw e
                                 end))) store [];
  VectorIndex.adelete_by_ids := None
|}.

End Scenarios.

Import Scenarios.

(** ** Draining a lazy sequence *)

Section Drain.
Context {A : Type}.
Implicit Types (s : lazy_seq A) (docs : list A).

Lemma drain_app s docs :
  drain s docs =
  match ending s with
  | None => Ok (docs ++ yielded s)
  | Some e => Raise e
  end.
Proof.
  revert docs. induction s as [|a rest IH|e]; intros docs; simpl.
  - by rewrite app_nil_r.
  - rewrite IH. destruct (ending rest); [done|]. by rewrite <- app_assoc.
  - done.
Qed.

Lemma ending_of_list (l : list A) : ending (of_list l) = None.
Proof. induction l; simpl; auto. Qed.

Lemma yielded_of_list (l : list A) : yielded (of_list l) = l.
Proof. induction l; simpl; congruence. Qed.

Lemma py_list_materialize (x : iterable A) : py_list x = materialize x.
Proof.
  unfold py_list, materialize. destruct (iter x) as [s|e]; [|done].
  apply drain_app.
Qed.

Lemma py_list_PyList (l : list A) : py_list (PyList l) = Ok l.
Proof.
  rewrite py_list_materialize. unfold materialize. simpl.
  by rewrite ending_of_list, yielded_of_list.
Qed.

(** A materialized sequence holds, at each position, what the lazy
    sequence produced at that position. *)
Lemma materialize_order (s : lazy_seq A) docs :
  materialize (Generator s) = Ok docs → ∀ i, docs !! i = nth_yield s i.
Proof.
  unfold materialize. simpl. destruct (ending s) eqn:E; [done|].
  intros [= <-]. clear E. induction s as [|a rest IH|e]; intros i; simpl.
  - by destruct i.
  - destruct i; simpl; auto.
  - by destruct i.
Qed.

(** [async for] accepts no list and no generator. *)
Lemma async_for_append_sync (x : iterable A) s :
  iter x = Ok s →
  async_for_append x =
  Raise (TypeError "'async for' requires an object with __aiter__ method").
Proof. destruct x; simpl; [done|done|discriminate]. Qed.

End Drain.

(** ** The default policy of the filtered operations *)

Section Policy.
Context {Document St : Type} `{!Backend Document St}.
Implicit Types (ids : iterable string) (filters : option Filter)
  (kwargs : gmap string kwvalue) (st : St).

Lemma dict_truthy_empty {V} (d : gmap string V) :
  dict_truthy d = false ↔ d = ∅.
Proof.
  unfold dict_truthy. rewrite negb_false_iff, Nat.eqb_eq.
  apply map_size_empty_iff.
Qed.

Lemma warn_ignored_policy filters kwargs st :
  warn_ignored (St:=St) (fold_filters filters kwargs) st =
  Outcome (Ok tt) st (policy_warnings filters kwargs).
Proof.
  unfold warn_ignored, policy_warnings, fold_filters.
  set (remaining := match filters with Some _ => _ | None => _ end).
  destruct (dict_truthy remaining) eqn:E.
  - destruct (decide (remaining = ∅)) as [Hr|Hr]; [|done].
    apply dict_truthy_empty in Hr. congruence.
  - apply dict_truthy_empty in E. by rewrite decide_True.
Qed.

(** After the guard on [ids], a default operation is its delegate with
    the policy's warnings in front. *)
Lemma policy_then {B} (delegate : M St B) filters kwargs st :
  (let! _ := warn_ignored (fold_filters filters kwargs) in delegate) st =
  after_warnings (policy_warnings filters kwargs) (delegate st).
Proof.
  unfold bind. rewrite warn_ignored_policy. simpl.
  unfold after_warnings. by destruct (delegate st) as [[b|e] st' ws].
Qed.

Lemma lazy_get_some ids filters kwargs st :
  lazy_get (Some ids) filters kwargs st =
  after_warnings (policy_warnings filters kwargs) (lazy_get_by_ids ids st).
Proof. apply policy_then. Qed.

Lemma alazy_get_some ids filters kwargs st :
  alazy_get (Some ids) filters kwargs st =
  after_warnings (policy_warnings filters kwargs) (alazy_get_by_ids ids st).
Proof. apply policy_then. Qed.

Lemma bind_after_warnings {B C} ws (o : outcome St B) (m : M St B) (k : B → M St C) st :
  m st = after_warnings ws o →
  bind m k st = after_warnings ws (bind (fun _ => o) k st).
Proof.
  intros E. unfold bind. rewrite E. unfold after_warnings. simpl.
  destruct (result o); simpl; [|done]. by rewrite app_assoc.
Qed.

Lemma get_some ids filters kwargs st :
  get (Some ids) filters kwargs st =
  after_warnings (policy_warnings filters kwargs) (get_by_ids ids st).
Proof.
  unfold get.
  erewrite bind_after_warnings by apply lazy_get_some. done.
Qed.

Lemma aget_some ids filters kwargs st :
  aget (Some ids) filters kwargs st =
  after_warnings (policy_warnings filters kwargs) (aget_by_ids ids st).
Proof.
  unfold aget.
  erewrite bind_after_warnings by apply alazy_get_some. done.
Qed.

Lemma adelete_some ids filters kwargs st :
  adelete (Some ids) filters kwargs st =
  after_warnings (policy_warnings filters kwargs)
    (match adelete_by_ids with
     | Some method => method ids st
     | None => Outcome (Raise (AttributeError "adelete_by_ids")) st []
     end).
Proof.
  unfold adelete. rewrite policy_then. f_equal.
  unfold bind, getattr_adelete_by_ids.
  destruct adelete_by_ids as [method|]; simpl; [|done].
  by destruct (method ids st).
Qed.

Lemma delete_by_filter_unbound filters kwargs st :
  delete_by_filter filters kwargs st = Outcome (Raise (NameError "ids")) st [].
Proof. reflexivity. Qed.

Lemma policy_warnings_nil filters kwargs :
  policy_warnings filters kwargs = [] ↔ fold_filters filters kwargs = ∅.
Proof.
  unfold policy_warnings, fold_filters.
  set (remaining := match filters with Some _ => _ | None => _ end).
  destruct (decide (remaining = ∅)); split; done.
Qed.

Lemma fold_filters_empty filters kwargs :
  fold_filters filters kwargs = ∅ ↔
  kwargs = ∅ ∧ (∀ f, filters = Some f → filter_truthy f = false).
Proof.
  unfold fold_filters. destruct filters as [f|].
  - destruct (filter_truthy f) eqn:E.
    + split.
      * intros Hu. apply (f_equal (lookup "filters")) in Hu. revert Hu.
        rewrite lookup_empty, lookup_union_None, lookup_singleton_eq.
        by intros [_ ?].
      * intros [_ Hf]. specialize (Hf f eq_refl). congruence.
    + split; [intros ->; split; [done|congruence] | by intros [-> _]].
  - split; [intros ->; split; [done|congruence] | by intros [-> _]].
Qed.

End Policy.

(** ** Properties of the default operations, for every backend *)

Section Contract.
Context {Document St : Type} `{!Backend Document St}.
Implicit Types (ids : iterable string) (filters : option Filter)
  (kwargs : gmap string kwvalue) (st : St).

Lemma after_no_warnings {B} (o : outcome St B) : after_warnings [] o = o.
Proof. by destruct o. Qed.

Lemma bind_lift {B C} (m : M St B) (f : B → Result C) st :
  bind m (fun b => lift (f b)) st =
  Outcome (match result (m st) with Ok b => f b | Raise e => Raise e end)
          (final (m st)) (warned (m st)).
Proof.
  unfold bind, lift. destruct (m st) as [[b|e] st' ws]; simpl; [|done].
  by rewrite app_nil_r.
Qed.

(** C5. The eager [get_by_ids(ids)] is the materialization of the lazy
    sequence that [lazy_get_by_ids(ids)] returns: every document it
    produces, in the order of production, as a list (and the error of the
    sequence when it has one). State and warnings are those of the lazy
    call. *)
Theorem get_by_ids_materializes ids st :
  get_by_ids ids st =
  let o := lazy_get_by_ids ids st in
  Outcome (match result o with
           | Ok it => materialize it
           | Raise e => Raise e
           end) (final o) (warned o).
Proof.
  unfold get_by_ids. rewrite bind_lift. simpl.
  destruct (result (lazy_get_by_ids ids st)); [|done].
  by rewrite py_list_materialize.
Qed.

(** The default asynchronous adapter hands [ids] to the synchronous
    primitive as it is; what the primitive returns, iterable with [for],
    is then iterated with [async for]. *)
Lemma aget_by_ids_sync_primitive ids st it s :
  result (lazy_get_by_ids ids st) = Ok it →
  iter it = Ok s →
  result (aget_by_ids ids st) =
  Raise (TypeError "'async for' requires an object with __aiter__ method").
Proof.
  intros Hit Hs. unfold aget_by_ids, alazy_get_by_ids, run_in_executor.
  rewrite bind_lift. simpl. rewrite Hit. by eapply async_for_append_sync.
Qed.

(** C2. Without identifiers, [lazy_get], [get], [alazy_get], [aget] and
    [adelete] raise ValueError whatever the filter and the other keyword
    arguments, before any warning and any call of the backend.
    [delete_by_filter] raises NameError instead: its body reads [ids],
    which its signature does not bind. *)
Theorem missing_ids_raise filters kwargs st :
  lazy_get None filters kwargs st
    = Outcome (Raise (ValueError "Must provide ids to get.")) st []
  ∧ get None filters kwargs st
    = Outcome (Raise (ValueError "Must provide ids to get.")) st []
  ∧ alazy_get None filters kwargs st
    = Outcome (Raise (ValueError "Must provide ids to get.")) st []
  ∧ aget None filters kwargs st
    = Outcome (Raise (ValueError "Must provide ids to get.")) st []
  ∧ adelete None filters kwargs st
    = Outcome (Raise (ValueError "Must provide ids to delete.")) st []
  ∧ delete_by_filter filters kwargs st
    = Outcome (Raise (NameError "ids")) st [].
Proof. repeat split; reflexivity. Qed.

(** C4. With identifiers and a filter that is true (a query object, a
    non-empty dict or list), [get] returns what [get] returns without the
    filter, leaves the same backend state, and emits one warning first;
    the warning carries the keyword arguments with the filter under the
    key "filters". *)
Theorem get_with_filter ids f kwargs st :
  filter_truthy f = true →
  kwargs !! "filters" = None →
  let with_filter := get (Some ids) (Some f) kwargs st in
  let w := UserWarning ids_only_message (kwargs ∪ {[ "filters" := KwFilter f ]}) in
  result with_filter = result (get (Some ids) None kwargs st)
  ∧ final with_filter = final (get (Some ids) None kwargs st)
  ∧ result with_filter = result (get (Some ids) None ∅ st)
  ∧ warned with_filter = w :: warned (get (Some ids) None ∅ st)
  ∧ received w !! "filters" = Some (KwFilter f).
Proof.
  intros Hf Hk. simpl. rewrite !get_some.
  assert (policy_warnings (Some f) kwargs =
          [UserWarning ids_only_message (kwargs ∪ {[ "filters" := KwFilter f ]})])
    as ->.
  { unfold policy_warnings. rewrite Hf. rewrite decide_False; [done|].
    intros Hu. apply (f_equal (lookup "filters")) in Hu. revert Hu.
    rewrite lookup_empty, lookup_union_None, lookup_singleton_eq.
    by intros [_ ?]. }
  assert (policy_warnings None (∅ : gmap string kwvalue) = []) as ->.
  { by apply policy_warnings_nil. }
  repeat split; try done.
  simpl. rewrite lookup_union_r by done. apply lookup_singleton_eq.
Qed.

(** C9. When identifiers are supplied, each of [lazy_get], [alazy_get],
    [get], [aget] and [adelete] is its identifier-based delegate preceded by
    the warnings of the policy: none when the remaining keyword arguments,
    the folded-in filter included, are empty, and one otherwise. For a
    backend call that emits no warning of its own the four get operations
    therefore warn exactly when the remaining keyword arguments are
    non-empty; with no true filter and no other keyword argument [lazy_get]
    and [get] are [lazy_get_by_ids] and [get_by_ids]. [delete_by_filter]
    does not follow: an [ids=...] of the caller is itself a remaining
    keyword argument, so the policy has a warning to emit, and the call
    raises NameError before it, with no warning and no delegation. *)
Theorem warning_iff_remaining_kwargs ids filters kwargs st :
  (policy_warnings filters kwargs = [] ↔ fold_filters filters kwargs = ∅)
  ∧ (fold_filters filters kwargs = ∅ ↔
     kwargs = ∅ ∧ ∀ f, filters = Some f → filter_truthy f = false)
  ∧ (policy_warnings filters kwargs = [] ∨
     policy_warnings filters kwargs =
       [UserWarning ids_only_message (fold_filters filters kwargs)])
  ∧ lazy_get (Some ids) filters kwargs st
    = after_warnings (policy_warnings filters kwargs) (lazy_get_by_ids ids st)
  ∧ alazy_get (Some ids) filters kwargs st
    = after_warnings (policy_warnings filters kwargs) (alazy_get_by_ids ids st)
  ∧ get (Some ids) filters kwargs st
    = after_warnings (policy_warnings filters kwargs) (get_by_ids ids st)
  ∧ aget (Some ids) filters kwargs st
    = after_warnings (policy_warnings filters kwargs) (aget_by_ids ids st)
  ∧ adelete (Some ids) filters kwargs st
    = after_warnings (policy_warnings filters kwargs)
        (match adelete_by_ids with
         | Some method => method ids st
         | None => Outcome (Raise (AttributeError "adelete_by_ids")) st []
         end)
  ∧ (warned (lazy_get_by_ids ids st) = [] →
     warns_iff_remaining lazy_get (Some ids) filters kwargs st
     ∧ warns_iff_remaining alazy_get (Some ids) filters kwargs st
     ∧ warns_iff_remaining get (Some ids) filters kwargs st
     ∧ warns_iff_remaining aget (Some ids) filters kwargs st)
  ∧ ((∀ f, filters = Some f → filter_truthy f = false) →
     lazy_get (Some ids) filters ∅ st = lazy_get_by_ids ids st
     ∧ get (Some ids) filters ∅ st = get_by_ids ids st)
  ∧ (∀ v, policy_warnings filters (<[ "ids" := v ]> kwargs) ≠ []
          ∧ delete_by_filter filters (<[ "ids" := v ]> kwargs) st
            = Outcome (Raise (NameError "ids")) st []).
Proof.
  split; [apply policy_warnings_nil|].
  split; [apply fold_filters_empty|].
  split.
  { unfold policy_warnings, fold_filters.
    set (remaining := match filters with Some _ => _ | None => _ end).
    destruct (decide (remaining = ∅)); auto. }
  split; [apply lazy_get_some|].
  split; [apply alazy_get_some|].
  split; [apply get_some|].
  split; [apply aget_some|].
  split; [apply adelete_some|].
  split; [|split].
  - intros Hq. unfold warns_iff_remaining.
    rewrite lazy_get_some, alazy_get_some, get_some, aget_some.
    unfold get_by_ids, aget_by_ids, alazy_get_by_ids, run_in_executor.
    rewrite !bind_lift. simpl. rewrite Hq, app_nil_r. done.
  - intros Hf.
    assert (policy_warnings filters (∅ : gmap string kwvalue) = []) as E.
    { apply policy_warnings_nil, fold_filters_empty. by split. }
    rewrite lazy_get_some, get_some, E. by rewrite !after_no_warnings.
  - intros v. split; [|apply delete_by_filter_unbound].
    rewrite policy_warnings_nil, fold_filters_empty. intros [Hempty _].
    apply (f_equal (lookup "ids")) in Hempty.
    by rewrite lookup_insert_eq, lookup_empty in Hempty.
Qed.

(** C10. The guard of the filtered get operations is [ids is None]: with
    [ids=[]], no filter and no other keyword argument, [lazy_get] is
    [lazy_get_by_ids([])] and [get] is [get_by_ids([])], with no warning
    added, and for any supplied [ids] the result is the delegate's. When
    the backend's lazy sequence for no identifier is empty, [get] returns
    the empty list. *)
Theorem get_empty_ids st :
  lazy_get (Some (PyList [])) None ∅ st = lazy_get_by_ids (PyList []) st
  ∧ get (Some (PyList [])) None ∅ st = get_by_ids (PyList []) st
  ∧ (∀ ids filters kwargs,
       result (lazy_get (Some ids) filters kwargs st)
         = result (lazy_get_by_ids ids st)
       ∧ result (get (Some ids) filters kwargs st)
         = result (get_by_ids ids st))
  ∧ (∀ it, result (lazy_get_by_ids (PyList []) st) = Ok it →
           materialize it = Ok [] →
           result (get (Some (PyList [])) None ∅ st) = Ok []
           ∧ warned (get (Some (PyList [])) None ∅ st)
             = warned (lazy_get_by_ids (PyList []) st)).
Proof.
  assert (policy_warnings None (∅ : gmap string kwvalue) = []) as E.
  { by apply policy_warnings_nil. }
  split; [by rewrite lazy_get_some, E, after_no_warnings|].
  split; [by rewrite get_some, E, after_no_warnings|].
  split.
  - intros ids filters kwargs. by rewrite lazy_get_some, get_some.
  - intros it Hit Hm. rewrite get_some, E, after_no_warnings.
    unfold get_by_ids. rewrite bind_lift. simpl.
    by rewrite Hit, py_list_materialize.
Qed.

End Contract.

(** ** Properties of the [DictIndex] backend *)

Section DictIndexFacts.
Context {Document : Type}.
Implicit Types (store : gmap string Document) (l : list string)
  (docs : list Document).

(** One turn of the loop of [delete_by_ids]. *)
Lemma delete_loop_step id_ rest succeeded failed store :
  DictIndex.delete_loop (Yield id_ rest) succeeded failed store =
  match store !! id_ with
  | Some _ => DictIndex.delete_loop rest (succeeded ++ [id_]) failed (delete id_ store)
  | None => DictIndex.delete_loop rest succeeded (failed ++ [id_]) store
  end.
Proof.
  simpl. unfold bind, try_except_else, DictIndex.delitem.
  destruct (store !! id_); simpl.
  - by destruct (DictIndex.delete_loop rest _ _ _).
  - by destruct (DictIndex.delete_loop rest _ _ _).
Qed.

(** One turn of the loop of [upsert]. *)
Lemma upsert_loop_step id_ doc rest succeeded store :
  DictIndex.upsert_loop (Yield (id_, doc) rest) succeeded store =
  DictIndex.upsert_loop rest (succeeded ++ [id_]) (<[id_ := doc]> store).
Proof.
  simpl. unfold bind, DictIndex.setitem. simpl.
  by destruct (DictIndex.upsert_loop rest _ _).
Qed.

(** [delete_by_ids] always returns; an identifier that is not stored when
    it is reached goes to [failed], and deleting never stores anything. *)
Lemma delete_loop_total l : ∀ succeeded failed store,
  ∃ s' f' store',
    DictIndex.delete_loop (of_list l) succeeded failed store
      = Outcome (Ok {| Py.succeeded := succeeded ++ s'; Py.failed := failed ++ f' |})
                store' []
    ∧ (∀ id, id ∈ l → store !! id = None → id ∈ f')
    ∧ (∀ id, id ∈ s' ∨ id ∈ f' ↔ id ∈ l).
Proof.
  induction l as [|id_ l IH]; intros succeeded failed store.
  - exists [], [], store. simpl. rewrite !app_nil_r.
    split; [done|]. split; [by intros ? ?%elem_of_nil|].
    intros id. rewrite !elem_of_nil. tauto.
  - change (of_list (id_ :: l)) with (Yield id_ (of_list l)).
    rewrite delete_loop_step. destruct (store !! id_) as [doc|] eqn:E.
    + destruct (IH (succeeded ++ [id_]) failed (delete id_ store))
        as (s' & f' & store' & Heq & Hfail & Hcover).
      exists (id_ :: s'), f', store'. rewrite Heq, <- app_assoc.
      split; [done|]. split.
      * intros id [->|Hin]%elem_of_cons Hnone; [congruence|].
        apply Hfail; [done|]. apply lookup_delete_None. by right.
      * intros id. rewrite !elem_of_cons, <- Hcover. tauto.
    + destruct (IH succeeded (failed ++ [id_]) store)
        as (s' & f' & store' & Heq & Hfail & Hcover).
      exists s', (id_ :: f'), store'. rewrite Heq, <- app_assoc.
      split; [done|]. split.
      * intros id [->|Hin]%elem_of_cons Hnone; [apply elem_of_cons; by left|].
        apply elem_of_cons. right. by apply Hfail.
      * intros id. rewrite !elem_of_cons, <- Hcover. tauto.
Qed.

Lemma filter_delete_fresh (P : option Document → Prop)
    `{!∀ o, Decision (P o)} id_ l store :
  id_ ∉ l →
  filter (λ id, P (delete id_ store !! id)) l = filter (λ id, P (store !! id)) l.
Proof.
  induction l as [|x l IH]; intros Hfresh; [done|].
  apply not_elem_of_cons in Hfresh as [Hne Hfresh].
  assert (delete id_ store !! x = store !! x) as Hx
    by (apply lookup_delete_ne; congruence).
  destruct (decide (P (store !! x))) as [HP|HP].
  - rewrite !filter_cons_True by (by rewrite ?Hx). by rewrite IH.
  - rewrite !filter_cons_False by (by rewrite ?Hx). by apply IH.
Qed.

(** On identifiers without repetition, [succeeded] is the stored ones and
    [failed] the others, each in the order of the request. *)
Lemma delete_loop_nodup l : NoDup l → ∀ succeeded failed store,
  ∃ store',
    DictIndex.delete_loop (of_list l) succeeded failed store
      = Outcome (Ok {| Py.succeeded := succeeded ++ filter (λ id, is_Some (store !! id)) l;
                       Py.failed := failed ++ filter (λ id, store !! id = None) l |})
                store' [].
Proof.
  induction 1 as [|id_ l Hfresh Hnd IH]; intros succeeded failed store.
  - exists store. simpl. by rewrite !app_nil_r.
  - change (of_list (id_ :: l)) with (Yield id_ (of_list l)).
    rewrite delete_loop_step. destruct (store !! id_) as [doc|] eqn:E.
    + destruct (IH (succeeded ++ [id_]) failed (delete id_ store)) as [store' Heq].
      exists store'. rewrite Heq.
      rewrite (filter_delete_fresh is_Some) by done.
      rewrite (filter_delete_fresh (λ o, o = None)) by done.
      rewrite filter_cons_True by (by rewrite E).
      rewrite filter_cons_False by (by rewrite E).
      by rewrite <- app_assoc.
    + destruct (IH succeeded (failed ++ [id_]) store) as [store' Heq].
      exists store'. rewrite Heq.
      rewrite filter_cons_False by (rewrite E; by intros [? ?]).
      rewrite filter_cons_True by done.
      by rewrite <- app_assoc.
Qed.

Lemma partitions_filter l store :
  partitions l (filter (λ id, is_Some (store !! id)) l)
               (filter (λ id, store !! id = None) l).
Proof.
  split.
  - intros id. rewrite !list_elem_of_filter.
    destruct (store !! id) eqn:E; rewrite ?E.
    + split; [intros ?; left; split; [by eexists|done] | intros [[_ ?]|[_ ?]]; done].
    + split; [intros ?; right; by split | intros [[_ ?]|[_ ?]]; done].
  - intros id. rewrite !list_elem_of_filter.
    intros [[[doc Hs] _] [Hn _]]. congruence.
Qed.

Lemma zip_seq_of_list {B} l (k : list B) :
  DictIndex.zip_seq (of_list l) (of_list k) = of_list (zip l k).
Proof.
  revert k. induction l as [|x l IH]; intros [|y k]; simpl; try done.
  by rewrite IH.
Qed.

Lemma upsert_loop_of_list (pairs : list (string * Document)) :
  ∀ succeeded store,
    DictIndex.upsert_loop (of_list pairs) succeeded store
    = Outcome (Ok {| upsert_succeeded := succeeded ++ pairs.*1; upsert_failed := [] |})
              (foldl (λ st p, <[p.1 := p.2]> st) store pairs) [].
Proof.
  induction pairs as [|[id_ doc] pairs IH]; intros succeeded store.
  - simpl. by rewrite app_nil_r.
  - change (of_list ((id_, doc) :: pairs)) with (Yield (id_, doc) (of_list pairs)).
    rewrite upsert_loop_step, IH. simpl. by rewrite <- app_assoc.
Qed.

(** With a non-empty list of identifiers [upsert] stores the documents
    paired with them by position, up to the shorter of the two. *)
Lemma upsert_given uuid4 docs l store :
  l ≠ [] →
  DictIndex.upsert uuid4 (PyList docs) (Some (PyList l)) store
  = Outcome (Ok {| upsert_succeeded := (zip l docs).*1; upsert_failed := [] |})
            (foldl (λ st p, <[p.1 := p.2]> st) store (zip l docs)) [].
Proof.
  intros Hl. unfold DictIndex.upsert, DictIndex.ids_or_uuid4.
  destruct l as [|id_ l]; [done|].
  unfold truthy, bind, lift, DictIndex.py_zip, iter.
  rewrite zip_seq_of_list. cbn [result final warned].
  by rewrite upsert_loop_of_list.
Qed.

(** The generator of [lazy_get_by_ids] on a list of identifiers. *)
Lemma yield_each_all store l docs :
  Forall2 (λ id doc, store !! id = Some doc) l docs →
  DictIndex.yield_each store (of_list l) = of_list docs.
Proof.
  induction 1 as [|id doc l docs Hid _ IH]; simpl; [done|].
  by rewrite Hid, IH.
Qed.

Lemma yield_each_complete store l :
  ending (DictIndex.yield_each store (of_list l)) = None →
  Forall2 (λ id doc, store !! id = Some doc) l
          (yielded (DictIndex.yield_each store (of_list l))).
Proof.
  induction l as [|id l IH]; simpl; [constructor|].
  destruct (store !! id) as [doc|] eqn:E; simpl; [|done].
  intros Hend. constructor; auto.
Qed.

Lemma yield_each_nth store l i doc :
  nth_yield (DictIndex.yield_each store (of_list l)) i = Some doc →
  ∃ id, l !! i = Some id ∧ store !! id = Some doc.
Proof.
  revert i. induction l as [|id l IH]; intros i; simpl.
  - by destruct i.
  - destruct (store !! id) as [doc'|] eqn:E; simpl.
    + destruct i as [|i]; simpl.
      * intros [= <-]. by exists id.
      * apply IH.
    + by destruct i.
Qed.

End DictIndexFacts.

Section DictIndexClaims.
Context {Document : Type}.
Implicit Types (store : gmap string Document) (l : list string)
  (docs : list Document).

(** C7. On [DictIndex], [get_by_ids(ids)] returns [docs] exactly when
    [docs] holds, position by position, the document stored under the
    identifier requested at that position; and each document that the lazy
    sequence of [lazy_get_by_ids(ids)] produces is the one stored under the
    identifier at the same position of the request. *)
Theorem get_by_ids_request_order store l :
  (∀ docs,
     result (get_by_ids (PyList l) store) = Ok docs
     ↔ Forall2 (λ id doc, store !! id = Some doc) l docs)
  ∧ (∃ s,
       lazy_get_by_ids (PyList l) store = Outcome (Ok (Generator s)) store []
       ∧ ∀ i doc, nth_yield s i = Some doc →
                  ∃ id, l !! i = Some id ∧ store !! id = Some doc).
Proof.
  split.
  - intros docs. unfold get_by_ids. rewrite bind_lift. simpl.
    rewrite py_list_materialize. unfold materialize. simpl. split.
    + destruct (ending _) eqn:E; [done|]. intros [= <-].
      by apply yield_each_complete.
    + intros Hall. rewrite (yield_each_all _ _ _ Hall).
      by rewrite ending_of_list, yielded_of_list.
  - eexists. split; [reflexivity|]. simpl. apply yield_each_nth.
Qed.

(** C8. On [DictIndex], [delete_by_ids] returns a DeleteResponse for every
    list of identifiers, with no error and no warning, and every requested
    identifier that the store does not hold is in [failed]. *)
Theorem delete_by_ids_unknown_failed store l :
  ∃ resp store',
    DictIndex.delete_by_ids (PyList l) store = Outcome (Ok resp) store' []
    ∧ ∀ id, id ∈ l → store !! id = None → id ∈ failed resp.
Proof.
  destruct (delete_loop_total l [] [] store)
    as (s' & f' & store' & Heq & Hfail & _).
  exists {| succeeded := s'; failed := f' |}, store'. split; [|done].
  unfold DictIndex.delete_by_ids, bind, lift. simpl. by rewrite Heq.
Qed.

(** C6, as amended. On [DictIndex], for identifiers without repetition
    the [succeeded] and [failed] lists of [delete_by_ids] partition the
    submitted identifiers (the stored ones succeed, the others fail); and
    for a non-empty list of identifiers no longer than the documents,
    [upsert] reports exactly the submitted identifiers as [succeeded] and
    none as [failed]. *)
Theorem responses_partition_ids store l :
  (NoDup l →
   ∃ resp store',
     DictIndex.delete_by_ids (PyList l) store = Outcome (Ok resp) store' []
     ∧ succeeded resp = filter (λ id, is_Some (store !! id)) l
     ∧ failed resp = filter (λ id, store !! id = None) l
     ∧ partitions l (succeeded resp) (failed resp))
  ∧ (∀ uuid4 docs,
       l ≠ [] → (length l ≤ length docs)%nat →
       ∃ resp store',
         DictIndex.upsert uuid4 (PyList docs) (Some (PyList l)) store
           = Outcome (Ok resp) store' []
         ∧ upsert_succeeded resp = l
         ∧ upsert_failed resp = []
         ∧ partitions l (upsert_succeeded resp) (upsert_failed resp)).
Proof.
  split.
  - intros Hnd. destruct (delete_loop_nodup l Hnd [] [] store) as [store' Heq].
    eexists _, store'. split.
    + unfold DictIndex.delete_by_ids, bind, lift. simpl. by rewrite Heq.
    + simpl. repeat split; try done; apply partitions_filter.
  - intros uuid4 docs Hne Hlen. eexists _, _. split.
    + by apply upsert_given.
    + simpl. rewrite fst_zip by done. repeat split; try done.
      * by left.
      * by intros [?|?%elem_of_nil].
      * by intros ? [_ ?%elem_of_nil].
Qed.

(** C1. On [DictIndex], the default [aget_by_ids] raises TypeError for
    every argument: [alazy_get_by_ids] is [lazy_get_by_ids] on the same
    [ids], not collected, and the generator it returns is then iterated
    with [async for]. [get_by_ids(["a"])] returns the stored document;
    [aget_by_ids] on the same identifiers, as an asynchronous sequence or
    as a list, raises. *)
Theorem aget_by_ids_raises store (ids : iterable string) (doc : Document) :
  result (aget_by_ids ids store)
    = Raise (TypeError "'async for' requires an object with __aiter__ method")
  ∧ alazy_get_by_ids ids store = lazy_get_by_ids ids store
  ∧ result (get_by_ids (PyList ["a"]) {[ "a" := doc ]}) = Ok [doc]
  ∧ result (aget_by_ids (AsyncGenerator (of_list ["a"])) {[ "a" := doc ]})
    = Raise (TypeError "'async for' requires an object with __aiter__ method")
  ∧ result (aget_by_ids (PyList ["a"]) {[ "a" := doc ]})
    = Raise (TypeError "'async for' requires an object with __aiter__ method").
Proof.
  assert (∀ st i, result (aget_by_ids (Document:=Document) i st)
    = Raise (TypeError "'async for' requires an object with __aiter__ method"))
    as Hraise.
  { intros st i. eapply aget_by_ids_sync_primitive; reflexivity. }
  split; [apply Hraise|]. split; [reflexivity|].
  split; [|split; apply Hraise].
  unfold get_by_ids. rewrite bind_lift. simpl.
  by rewrite lookup_singleton_eq.
Qed.

End DictIndexClaims.

(** ** The filtered delete, and the claims on concrete calls *)

(** C3. [adelete] with identifiers is [self.adelete_by_ids(ids)] after the
    warnings of the policy, when the backend has that method, and
    AttributeError when it has not: the class itself defines none.
    [delete_by_filter] delegates nothing: with [ids=["x"]] among the keyword
    arguments it raises NameError and leaves the store as it was, where
    [delete_by_ids(["x"])] deletes the document and reports "x" as
    succeeded. *)
Theorem filtered_delete_delegation :
  (∀ Document St (B : Backend Document St) ids filters kwargs (st : St),
     adelete (Some ids) filters kwargs st
     = after_warnings (policy_warnings filters kwargs)
         (match adelete_by_ids with
          | Some method => method ids st
          | None => Outcome (Raise (AttributeError "adelete_by_ids")) st []
          end))
  ∧ (∀ Document St (B : Backend Document St) filters kwargs (st : St),
       delete_by_filter filters kwargs st
       = Outcome (Raise (NameError "ids")) st [])
  ∧ (∀ Document (doc : Document),
       let store : gmap string Document := {[ "x" := doc ]} in
       delete_by_filter None {[ "ids" := KwVal (VList [VStr "x"]) ]} store
       = Outcome (Raise (NameError "ids")) store []
       ∧ delete_by_ids (PyList ["x"]) store
         = Outcome (Ok {| succeeded := ["x"]; failed := [] |}) ∅ []).
Proof.
  split; [intros; apply adelete_some|].
  split; [intros; apply delete_by_filter_unbound|].
  intros Document doc store. split; [reflexivity|].
  vm_compute. reflexivity.
Qed.

(** C6 as stated fails. Deleting an identifier requested twice puts it in
    both lists; upserting more identifiers than documents leaves the
    identifiers beyond the documents in neither list. *)
Lemma partition_broken :
  (result (DictIndex.delete_by_ids (PyList ["1"; "1"]) store_12)
     = Ok {| succeeded := ["1"]; failed := ["1"] |}
   ∧ ¬ partitions ["1"; "1"] ["1"] ["1"])
  ∧ (result (DictIndex.upsert uuid4 (PyList ["one"]) (Some (PyList ["1"; "2"])) ∅)
       = Ok {| upsert_succeeded := ["1"]; upsert_failed := [] |}
     ∧ ¬ partitions ["1"; "2"] ["1"] []).
Proof.
  split; (split; [vm_compute; reflexivity|]).
  - intros [_ Hdisjoint]. apply (Hdisjoint "1"). split; apply list_elem_of_here.
  - intros [Hcover _]. destruct (proj1 (Hcover "2")) as [Hin|Hin].
    + apply elem_of_cons. right. apply list_elem_of_here.
    + apply list_elem_of_singleton in Hin. discriminate.
    + by apply elem_of_nil in Hin.
Qed.

(** [get(ids=["x"], filters={"k": "v"})] against [get(ids=["x"])]. *)
Lemma get_with_filter_witness :
  filter_truthy filter_kv = true
  ∧ (∅ : gmap string kwvalue) !! "filters" = None
  ∧ result (get (Some (PyList ["x"])) (Some filter_kv) ∅ store_x) = Ok ["X"]
  ∧ result (get (Some (PyList ["x"])) None ∅ store_x) = Ok ["X"]
  ∧ warned (get (Some (PyList ["x"])) (Some filter_kv) ∅ store_x)
    = UserWarning ids_only_message (∅ ∪ {[ "filters" := KwFilter filter_kv ]})
      :: warned (get (Some (PyList ["x"])) None ∅ store_x).
Proof.
  split; [reflexivity|]. split; [reflexivity|].
  destruct (get_with_filter (PyList ["x"]) filter_kv ∅ store_x eq_refl
              (lookup_empty "filters"))
    as (_ & _ & Hresult & Hwarned & _).
  split; [rewrite Hresult; reflexivity|].
  split; [reflexivity|]. exact Hwarned.
Defined.

(** Upsert "1" and "2", then [delete_by_ids(["1","3"])]. *)
Lemma responses_partition_ids_witness :
  (∃ resp store',
     DictIndex.delete_by_ids (PyList ["1"; "3"]) store_12 = Outcome (Ok resp) store' []
     ∧ succeeded resp = ["1"] ∧ failed resp = ["3"]
     ∧ partitions ["1"; "3"] (succeeded resp) (failed resp))
  ∧ (∃ resp store',
       DictIndex.upsert uuid4 (PyList ["one"; "two"]) (Some (PyList ["1"; "2"])) ∅
         = Outcome (Ok resp) store' []
       ∧ partitions ["1"; "2"] (upsert_succeeded resp) (upsert_failed resp)).
Proof.
  split.
  - destruct (proj1 (responses_partition_ids store_12 ["1"; "3"]))
      as (resp & store' & Heq & Hs & Hf & Hp).
    + apply (bool_decide_unpack _). vm_compute. exact I.
    + exists resp, store'. split; [exact Heq|].
      split; [rewrite Hs; vm_compute; reflexivity|].
      split; [rewrite Hf; vm_compute; reflexivity|]. exact Hp.
  - destruct (proj2 (responses_partition_ids (∅ : gmap string string) ["1"; "2"])
                uuid4 ["one"; "two"])
      as (resp & store' & Heq & _ & _ & Hp).
    + discriminate.
    + simpl. lia.
    + exists resp, store'. split; [exact Heq | exact Hp].
Defined.

(** Documents upserted as a, b, c and requested as b, a, c. *)
Lemma get_by_ids_request_order_witness :
  result (get_by_ids (PyList ["b"; "a"; "c"]) store_abc) = Ok ["B"; "A"; "C"]
  ∧ ∃ s, lazy_get_by_ids (PyList ["b"; "a"; "c"]) store_abc
           = Outcome (Ok (Generator s)) store_abc []
         ∧ nth_yield s 0 = Some "B".
Proof.
  destruct (get_by_ids_request_order store_abc ["b"; "a"; "c"]) as [Heager Hlazy].
  split.
  - apply Heager. repeat constructor.
  - destruct Hlazy as (s & Heq & _). exists s. split; [exact Heq|].
    injection Heq as <-. reflexivity.
Defined.

(** Upsert "1" and "2", then [delete_by_ids(["1","3"])]: "3" fails. *)
Lemma delete_by_ids_unknown_failed_witness :
  ∃ resp store',
    DictIndex.delete_by_ids (PyList ["1"; "3"]) store_12 = Outcome (Ok resp) store' []
    ∧ "3" ∈ failed resp.
Proof.
  destruct (delete_by_ids_unknown_failed store_12 ["1"; "3"])
    as (resp & store' & Heq & Hfailed).
  exists resp, store'. split; [exact Heq|].
  apply Hfailed; [|reflexivity].
  apply elem_of_cons. right. apply list_elem_of_here.
Defined.

(** [get] and [lazy_get] with [ids=["x"]], with and without a filter, and
    [delete_by_filter(ids=["x"], filters={"k": "v"})]. *)
Lemma warning_iff_remaining_kwargs_witness :
  warned (lazy_get_by_ids (PyList ["x"]) store_x) = []
  ∧ warns_iff_remaining get (Some (PyList ["x"])) (Some filter_kv) ∅ store_x
  ∧ lazy_get (Some (PyList ["x"])) None ∅ store_x
    = lazy_get_by_ids (PyList ["x"]) store_x
  ∧ policy_warnings (Some filter_kv) (<[ "ids" := KwVal (VList [VStr "x"]) ]> ∅) ≠ []
  ∧ delete_by_filter (Some filter_kv) (<[ "ids" := KwVal (VList [VStr "x"]) ]> ∅)
      store_x
    = Outcome (Raise (NameError "ids")) store_x [].
Proof.
  split; [reflexivity|].
  split.
  - pose proof (warning_iff_remaining_kwargs (PyList ["x"]) (Some filter_kv) ∅ store_x)
      as (_ & _ & _ & _ & _ & _ & _ & _ & Hquiet & _).
    destruct (Hquiet eq_refl) as (_ & _ & Hget & _). exact Hget.
  - pose proof (warning_iff_remaining_kwargs (PyList ["x"]) None ∅ store_x)
      as (_ & _ & _ & _ & _ & _ & _ & _ & _ & Hplain & _).
    split; [destruct Hplain as [Hlazy _]; [discriminate | exact Hlazy]|].
    pose proof (warning_iff_remaining_kwargs (PyList ["x"]) (Some filter_kv) ∅ store_x)
      as (_ & _ & _ & _ & _ & _ & _ & _ & _ & _ & Hdelete).
    exact (Hdelete (KwVal (VList [VStr "x"]))).
Defined.

(** [get(ids=[])] on a store that holds documents. *)
Lemma get_empty_ids_witness :
  result (lazy_get_by_ids (PyList []) store_12) = Ok (Generator Stop)
  ∧ materialize (Generator (@Stop string)) = Ok []
  ∧ result (get (Some (PyList [])) None ∅ store_12) = Ok []
  ∧ warned (get (Some (PyList [])) None ∅ store_12) = [].
Proof.
  split; [reflexivity|]. split; [reflexivity|].
  destruct (get_empty_ids store_12) as (_ & _ & _ & Hempty).
  destruct (Hempty (Generator Stop) eq_refl eq_refl) as [Hresult Hwarned].
  split; [exact Hresult | exact Hwarned].
Defined.

(** ** [DictIndex.upsert]: what is stored, and under which identifiers *)

Section DictIndexUpsert.
Context {Document : Type}.
Implicit Types (store : gmap string Document) (l : list string)
  (docs : list Document) (pairs : list (string * Document)).

Lemma zip_uuid4_of_list uuid4 n docs :
  DictIndex.zip_uuid4 uuid4 n (of_list docs)
  = of_list (zip (uuid4 <$> seq n (length docs)) docs).
Proof.
  revert n. induction docs as [|doc docs IH]; intros n; simpl; [done|].
  by rewrite IH.
Qed.

Lemma fst_zip_take {B} l (k : list B) : (zip l k).*1 = take (length k) l.
Proof.
  revert k. induction l as [|x l IH]; intros [|y k]; simpl; try done.
  by rewrite IH.
Qed.

Lemma snd_zip_take {B} l (k : list B) :
  (zip l k).*2 = take (length (zip l k).*1) k.
Proof.
  revert k. induction l as [|x l IH]; intros [|y k]; simpl; try done.
  by rewrite <- IH.
Qed.

Lemma foldl_insert_fresh pairs store id :
  id ∉ pairs.*1 →
  foldl (λ st p, <[p.1 := p.2]> st) store pairs !! id = store !! id.
Proof.
  revert store. induction pairs as [|[x d] pairs IH]; intros store; simpl; [done|].
  intros [Hne Hfresh]%not_elem_of_cons.
  rewrite IH by done. by apply lookup_insert_ne.
Qed.

Lemma foldl_insert_last pairs1 id doc pairs2 store :
  id ∉ pairs2.*1 →
  foldl (λ st p, <[p.1 := p.2]> st) store (pairs1 ++ (id, doc) :: pairs2) !! id
  = Some doc.
Proof.
  intros Hfresh. rewrite foldl_app. simpl.
  rewrite foldl_insert_fresh by done. apply lookup_insert_eq.
Qed.

Lemma foldl_insert_nodup pairs store :
  NoDup pairs.*1 →
  Forall2 (λ id doc, foldl (λ st p, <[p.1 := p.2]> st) store pairs !! id = Some doc)
          pairs.*1 pairs.*2.
Proof.
  intros Hnd. apply Forall2_fmap, Forall2_same_length_lookup_2; [done|].
  intros i [id doc] [id' doc'] Hi Hi'. simplify_eq. simpl.
  rewrite <- (take_drop_middle pairs i (id, doc)) by done.
  apply foldl_insert_last.
  rewrite <- (take_drop_middle pairs i (id, doc)) in Hnd by done.
  rewrite fmap_app, fmap_cons in Hnd. simpl in Hnd.
  apply NoDup_app in Hnd as (_ & _ & Hnd). by apply NoDup_cons in Hnd as [? _].
Qed.

(** The identifiers that [upsert] pairs with the documents. *)
Lemma upsert_list uuid4 docs (ids : option (list string)) store :
  let given := match ids with
               | Some (id :: l) => id :: l
               | Some [] | None => uuid4 <$> seq 0 (length docs)
               end in
  DictIndex.upsert uuid4 (PyList docs) (PyList <$> ids) store
  = Outcome (Ok {| upsert_succeeded := (zip given docs).*1; upsert_failed := [] |})
            (foldl (λ st p, <[p.1 := p.2]> st) store (zip given docs)) [].
Proof.
  destruct ids as [[|id l]|]; simpl.
  - unfold DictIndex.upsert, bind, lift. simpl.
    by rewrite zip_uuid4_of_list, upsert_loop_of_list.
  - by rewrite upsert_given.
  - unfold DictIndex.upsert, bind, lift. simpl.
    by rewrite zip_uuid4_of_list, upsert_loop_of_list.
Qed.

Lemma dict_get_by_ids_all store l docs :
  Forall2 (λ id doc, store !! id = Some doc) l docs →
  get_by_ids (PyList l) store = Outcome (Ok docs) store [].
Proof.
  intros Hall. unfold get_by_ids. rewrite bind_lift. simpl.
  rewrite py_list_materialize. unfold materialize. simpl.
  rewrite (yield_each_all _ _ _ Hall).
  by rewrite ending_of_list, yielded_of_list.
Qed.

Lemma upsert_loop_keeps (trace : lazy_seq (string * Document)) :
  ∀ succeeded store,
    let o := DictIndex.upsert_loop trace succeeded store in
    (∀ id, is_Some (store !! id) → is_Some (final o !! id))
    ∧ (∀ resp, result o = Ok resp →
         upsert_failed resp = []
         ∧ ∃ added, upsert_succeeded resp = succeeded ++ added
                    ∧ ∀ id, id ∈ added → is_Some (final o !! id)).
Proof.
  induction trace as [|[id_ doc] rest IH|e]; intros succeeded store.
  - simpl. split; [done|]. intros resp [= <-]. split; [done|].
    exists []. rewrite app_nil_r. split; [done|]. by intros ? ?%elem_of_nil.
  - rewrite upsert_loop_step.
    destruct (IH (succeeded ++ [id_]) (<[id_ := doc]> store)) as [Hkeep Hok].
    split.
    + intros id Hid. apply Hkeep. rewrite lookup_insert_is_Some.
      destruct (decide (id_ = id)); auto.
    + intros resp Hres. destruct (Hok resp Hres) as (Hfailed & added & Hs & Hadded).
      split; [done|]. exists (id_ :: added). rewrite Hs, <- app_assoc.
      split; [done|]. intros id [->|Hin]%elem_of_cons; [|by apply Hadded].
      apply Hkeep. rewrite lookup_insert_is_Some. by left.
  - simpl. split; [done|]. by intros resp.
Qed.

Lemma upsert_loop_interrupted l : ∀ (s : lazy_seq Document) e succeeded store,
  ending s = Some e →
  length (yielded s) < length l →
  DictIndex.upsert_loop (DictIndex.zip_seq (of_list l) s) succeeded store
  = Outcome (Raise e) (foldl (λ st p, <[p.1 := p.2]> st) store (zip l (yielded s))) [].
Proof.
  induction l as [|id_ l IH]; intros s e succeeded store Hend Hlen.
  - simpl in Hlen. lia.
  - destruct s as [|doc rest|e']; simpl in *; [done| |by simplify_eq].
    change (DictIndex.upsert_loop (Yield (id_, doc) (DictIndex.zip_seq (of_list l) rest))
              succeeded store
            = Outcome (Raise e)
                (foldl (λ st p, <[p.1 := p.2]> st) (<[id_ := doc]> store)
                   (zip l (yielded rest))) []).
    rewrite upsert_loop_step. apply IH; [done|lia].
Qed.

End DictIndexUpsert.

Section DictIndexUpsertProperties.
Context {Document : Type}.
Implicit Types (store : gmap string Document) (l : list string)
  (docs : list Document).

(** X1. Round trip. [upsert] of a list of documents, with a list of
    identifiers or with none, returns normally; when the identifiers it
    reports as succeeded are distinct, [get_by_ids] on them afterwards
    returns the documents upserted, in the same order, and changes
    nothing. *)
Theorem upsert_then_get uuid4 docs (ids : option (list string)) store :
  let o := DictIndex.upsert uuid4 (PyList docs) (PyList <$> ids) store in
  ∃ resp,
    result o = Ok resp
    ∧ (NoDup (upsert_succeeded resp) →
       get_by_ids (PyList (upsert_succeeded resp)) (final o)
       = Outcome (Ok (take (length (upsert_succeeded resp)) docs)) (final o) []).
Proof.
  simpl. rewrite upsert_list. simpl. eexists. split; [done|]. simpl.
  intros Hnd. apply dict_get_by_ids_all.
  rewrite <- snd_zip_take. by apply foldl_insert_nodup.
Qed.

(** X2. After [upsert] with a non-empty list of identifiers, an identifier
    that was paired with no document keeps what the store held for it, and
    an identifier that does not occur again later in the list holds the
    document at its position: of two documents upserted under one
    identifier, the later one stays. *)
Theorem upsert_store uuid4 docs l store :
  l ≠ [] →
  let store' := final (DictIndex.upsert uuid4 (PyList docs) (Some (PyList l)) store) in
  (∀ id, id ∉ take (length docs) l → store' !! id = store !! id)
  ∧ (∀ i id doc,
       l !! i = Some id → docs !! i = Some doc → id ∉ drop (S i) l →
       store' !! id = Some doc).
Proof.
  intros Hl. simpl. rewrite upsert_given by done. simpl. split.
  - intros id Hid. apply foldl_insert_fresh. by rewrite fst_zip_take.
  - intros i id doc Hi Hdoc Hlater.
    assert (zip l docs !! i = Some (id, doc)) as Hpair.
    { apply lookup_zip_with_Some. eauto. }
    rewrite <- (take_drop_middle _ _ _ Hpair). apply foldl_insert_last.
    intros ((x & d) & -> & Hin)%list_elem_of_fmap. simpl in Hlater.
    apply list_elem_of_lookup in Hin as [j Hj].
    rewrite lookup_drop in Hj.
    apply lookup_zip_with_Some in Hj as (x' & d' & [= <- <-] & Hx & _).
    apply Hlater. apply list_elem_of_lookup. exists j. by rewrite lookup_drop.
Qed.

(** X3. Where the identifiers of [upsert] come from. With no [ids], or with
    the empty list, each document gets the next identifier of
    [uuid4_generator()]. A generator of identifiers is used as it is, also
    when it yields nothing: then nothing is stored and nothing generated.
    In each case the identifiers beyond the number of documents are left
    out. *)
Theorem upsert_id_source uuid4 docs store :
  let generated := uuid4 <$> seq 0 (length docs) in
  DictIndex.upsert uuid4 (PyList docs) None store
  = Outcome (Ok {| upsert_succeeded := generated; upsert_failed := [] |})
            (foldl (λ st p, <[p.1 := p.2]> st) store (zip generated docs)) []
  ∧ DictIndex.upsert uuid4 (PyList docs) (Some (PyList [])) store
    = DictIndex.upsert uuid4 (PyList docs) None store
  ∧ (∀ l, DictIndex.upsert uuid4 (PyList docs) (Some (Generator (of_list l))) store
          = Outcome (Ok {| upsert_succeeded := take (length docs) l;
                           upsert_failed := [] |})
                    (foldl (λ st p, <[p.1 := p.2]> st) store (zip l docs)) [])
  ∧ DictIndex.upsert uuid4 (PyList docs) (Some (Generator Stop)) store
    = Outcome (Ok {| upsert_succeeded := []; upsert_failed := [] |}) store [].
Proof.
  simpl.
  assert (∀ l, DictIndex.upsert uuid4 (PyList docs) (Some (Generator (of_list l))) store
          = Outcome (Ok {| upsert_succeeded := take (length docs) l;
                           upsert_failed := [] |})
                    (foldl (λ st p, <[p.1 := p.2]> st) store (zip l docs)) [])
    as Hgen.
  { intros l. unfold DictIndex.upsert, bind, lift. simpl.
    by rewrite zip_seq_of_list, upsert_loop_of_list, fst_zip_take. }
  split; [|split; [|split]].
  - rewrite (upsert_list uuid4 docs None). simpl.
    rewrite fst_zip; [done|]. by rewrite length_fmap, length_seq.
  - by rewrite (upsert_list uuid4 docs None), (upsert_list uuid4 docs (Some [])).
  - exact Hgen.
  - pose proof (Hgen []) as Hnone. rewrite take_nil in Hnone. exact Hnone.
Qed.

(** X4. [upsert] removes no key, whatever its arguments and also when it
    raises; when it returns, [failed] is empty and every identifier in
    [succeeded] is a key of the store. *)
Theorem upsert_reports_stored uuid4 (documents : iterable Document)
    (ids : option (iterable string)) store :
  let o := DictIndex.upsert uuid4 documents ids store in
  (∀ id, is_Some (store !! id) → is_Some (final o !! id))
  ∧ (∀ resp, result o = Ok resp →
       upsert_failed resp = []
       ∧ ∀ id, id ∈ upsert_succeeded resp → is_Some (final o !! id)).
Proof.
  simpl. unfold DictIndex.upsert, bind, lift. simpl.
  destruct (DictIndex.py_zip uuid4 (DictIndex.ids_or_uuid4 ids) documents)
    as [trace|e]; simpl; [|split; [done|by intros resp]].
  destruct (upsert_loop_keeps trace [] store) as [Hkeep Hok]. split; [done|].
  intros resp Hres. destruct (Hok resp Hres) as (Hfailed & added & Hs & Hadded).
  split; [done|]. rewrite Hs. exact Hadded.
Qed.

(** X5. [upsert] is not atomic. When the documents are a generator that
    raises before the identifiers run out, [upsert] raises that error, no
    response is returned, and the documents produced before the error stay
    stored under their identifiers. *)
Theorem upsert_partial_on_error uuid4 l (s : lazy_seq Document) e store :
  ending s = Some e →
  length (yielded s) < length l →
  DictIndex.upsert uuid4 (Generator s) (Some (PyList l)) store
  = Outcome (Raise e)
            (foldl (λ st p, <[p.1 := p.2]> st) store (zip l (yielded s))) [].
Proof.
  intros Hend Hlen. unfold DictIndex.upsert, bind, lift, DictIndex.ids_or_uuid4.
  destruct l as [|id_ l]; [simpl in Hlen; lia|].
  cbn [truthy DictIndex.py_zip iter result final warned].
  by rewrite (upsert_loop_interrupted (id_ :: l) s e).
Qed.

End DictIndexUpsertProperties.

(** ** [DictIndex.delete_by_ids] and the lookups after it *)

Section DictIndexDelete.
Context {Document : Type}.
Implicit Types (store : gmap string Document) (l : list string)
  (docs : list Document).

(** The loop of [delete_by_ids] over any sequence of identifiers, also one
    that ends in an error. *)
Lemma delete_loop_trace (s : lazy_seq string) : ∀ succeeded failed store,
  ∃ deleted missed store',
    DictIndex.delete_loop s succeeded failed store
    = Outcome (match ending s with
               | None => Ok {| Py.succeeded := succeeded ++ deleted;
                               Py.failed := failed ++ missed |}
               | Some e => Raise e
               end) store' []
    ∧ deleted ++ missed ≡ₚ yielded s
    ∧ NoDup deleted
    ∧ (∀ id, id ∈ deleted → is_Some (store !! id))
    ∧ (∀ id, store' !! id = if decide (id ∈ yielded s) then None else store !! id).
Proof.
  induction s as [|id_ rest IH|e]; intros succeeded failed store.
  - exists [], [], store. simpl. rewrite !app_nil_r.
    repeat split; try done; [constructor | by intros ? ?%elem_of_nil].
  - rewrite delete_loop_step. destruct (store !! id_) as [doc|] eqn:E.
    + destruct (IH (succeeded ++ [id_]) failed (delete id_ store))
        as (deleted & missed & store' & Heq & Hperm & Hnd & Hstored & Hstore').
      exists (id_ :: deleted), missed, store'. rewrite Heq. simpl.
      split; [destruct (ending rest); by rewrite <- ?app_assoc|].
      split; [by rewrite Hperm|].
      split.
      { apply NoDup_cons. split; [|done]. intros Hin.
        apply Hstored in Hin. rewrite lookup_delete_eq in Hin. by destruct Hin. }
      split.
      { intros id [->|Hin]%elem_of_cons; [by rewrite E|].
        apply Hstored in Hin. by apply lookup_delete_is_Some in Hin as [_ ?]. }
      intros id. rewrite Hstore'.
      destruct (decide (id = id_)) as [->|Hne].
      * rewrite lookup_delete_eq. rewrite (decide_True (P:=id_ ∈ id_ :: _)).
        -- by destruct (decide _).
        -- apply elem_of_cons. by left.
      * rewrite lookup_delete_ne by done.
        destruct (decide (id ∈ yielded rest)) as [Hin|Hout].
        -- rewrite decide_True; [done|]. apply elem_of_cons. by right.
        -- rewrite decide_False; [done|]. by intros [?|?]%elem_of_cons.
    + destruct (IH succeeded (failed ++ [id_]) store)
        as (deleted & missed & store' & Heq & Hperm & Hnd & Hstored & Hstore').
      exists deleted, (id_ :: missed), store'. rewrite Heq. simpl.
      split; [destruct (ending rest); by rewrite <- ?app_assoc|].
      split; [by rewrite <- Permutation_middle, Hperm|].
      split; [done|]. split; [done|].
      intros id. rewrite Hstore'.
      destruct (decide (id ∈ yielded rest)) as [Hin|Hout].
      * rewrite decide_True; [done|]. apply elem_of_cons. by right.
      * destruct (decide (id = id_)) as [->|Hne].
        -- rewrite decide_True; [done|]. apply elem_of_cons. by left.
        -- rewrite decide_False; [done|]. by intros [?|?]%elem_of_cons.
  - exists [], [], store. simpl.
    repeat split; try done; [constructor | by intros ? ?%elem_of_nil].
Qed.

Lemma delete_by_ids_trace (ids : iterable string) (s : lazy_seq string) store :
  iter ids = Ok s →
  DictIndex.delete_by_ids ids store = DictIndex.delete_loop s [] [] store.
Proof.
  intros Hs. unfold DictIndex.delete_by_ids, bind, lift. simpl. rewrite Hs. simpl.
  by destruct (DictIndex.delete_loop s [] [] store).
Qed.

(** None of the identifiers is stored: all fail, the store stays. *)
Lemma delete_loop_absent l : ∀ succeeded failed store,
  (∀ id, id ∈ l → store !! id = None) →
  DictIndex.delete_loop (of_list l) succeeded failed store
  = Outcome (Ok {| Py.succeeded := succeeded; Py.failed := failed ++ l |}) store [].
Proof.
  induction l as [|id_ l IH]; intros succeeded failed store Habsent.
  - simpl. by rewrite app_nil_r.
  - change (of_list (id_ :: l)) with (Yield id_ (of_list l)).
    rewrite delete_loop_step, Habsent by (apply elem_of_cons; by left).
    rewrite IH; [by rewrite <- app_assoc|].
    intros id Hin. apply Habsent, elem_of_cons. by right.
Qed.

Lemma dict_get_by_ids_eq l store :
  get_by_ids (PyList l) store
  = Outcome (materialize (Generator (DictIndex.yield_each store (of_list l)))) store [].
Proof.
  unfold get_by_ids. rewrite bind_lift. simpl. by rewrite py_list_materialize.
Qed.

Lemma yield_each_ext l store1 store2 :
  (∀ id, id ∈ l → store1 !! id = store2 !! id) →
  DictIndex.yield_each store1 (of_list l) = DictIndex.yield_each store2 (of_list l).
Proof.
  induction l as [|id l IH]; intros Hsame; simpl; [done|].
  rewrite Hsame by (apply elem_of_cons; by left).
  rewrite IH; [done|]. intros x Hx. apply Hsame, elem_of_cons. by right.
Qed.

Lemma yield_each_missing store l1 id l2 docs1 :
  Forall2 (λ id doc, store !! id = Some doc) l1 docs1 →
  store !! id = None →
  yielded (DictIndex.yield_each store (of_list (l1 ++ id :: l2))) = docs1
  ∧ ending (DictIndex.yield_each store (of_list (l1 ++ id :: l2)))
    = Some (KeyError id).
Proof.
  intros Hall Hnone. induction Hall as [|x doc l1 docs1 Hx _ [IH1 IH2]]; simpl.
  - by rewrite Hnone.
  - rewrite Hx. simpl. by rewrite IH1, IH2.
Qed.

(** X6. [delete_by_ids] accounts for every position of the request, also
    with repeated identifiers: [succeeded] followed by [failed] is a
    rearrangement of the requested list, no identifier is in [succeeded]
    twice, and every identifier in [succeeded] was stored before the
    call. *)
Theorem delete_by_ids_accounts store l :
  ∃ resp store',
    DictIndex.delete_by_ids (PyList l) store = Outcome (Ok resp) store' []
    ∧ succeeded resp ++ failed resp ≡ₚ l
    ∧ NoDup (succeeded resp)
    ∧ (∀ id, id ∈ succeeded resp → is_Some (store !! id))
    ∧ length (succeeded resp) + length (failed resp) = length l.
Proof.
  destruct (delete_loop_trace (of_list l) [] [] store)
    as (deleted & missed & store' & Heq & Hperm & Hnd & Hstored & _).
  rewrite ending_of_list, yielded_of_list in *.
  exists {| succeeded := deleted; failed := missed |}, store'.
  rewrite (delete_by_ids_trace _ (of_list l)) by done.
  repeat split; try done. simpl. by rewrite <- length_app, Hperm.
Qed.

(** X7. The store after [delete_by_ids]: the requested identifiers are
    gone, every other key holds what it held. *)
Theorem delete_by_ids_store store l id :
  final (DictIndex.delete_by_ids (PyList l) store) !! id
  = if decide (id ∈ l) then None else store !! id.
Proof.
  destruct (delete_loop_trace (of_list l) [] [] store)
    as (deleted & missed & store' & Heq & _ & _ & _ & Hstore').
  rewrite yielded_of_list in Hstore'.
  rewrite (delete_by_ids_trace _ (of_list l)), Heq by done. apply Hstore'.
Qed.

(** X8. Delete, then get. After [delete_by_ids(ids)], [get_by_ids] on a
    deleted identifier raises KeyError for it, and [get_by_ids] on
    identifiers that were not in the request returns what it returned
    before. *)
Theorem delete_then_get store l :
  let store' := final (DictIndex.delete_by_ids (PyList l) store) in
  (∀ id, id ∈ l → result (get_by_ids (PyList [id]) store') = Raise (KeyError id))
  ∧ (∀ l', (∀ id, id ∈ l' → id ∉ l) →
       result (get_by_ids (PyList l') store') = result (get_by_ids (PyList l') store)).
Proof.
  cbv zeta. destruct (delete_loop_trace (of_list l) [] [] store)
    as (deleted & missed & store' & Heq & _ & _ & _ & Hstore').
  rewrite yielded_of_list in Hstore'.
  rewrite (delete_by_ids_trace _ (of_list l)), Heq by done. cbn [final]. split.
  - intros id Hin. rewrite dict_get_by_ids_eq. simpl.
    unfold materialize. simpl. rewrite Hstore', decide_True by done. done.
  - intros l' Hdisjoint. rewrite !dict_get_by_ids_eq. simpl.
    rewrite (yield_each_ext l' store' store); [done|].
    intros id Hin. rewrite Hstore', decide_False; [done|]. by apply Hdisjoint.
Qed.

(** X9. Deleting twice. The second [delete_by_ids] of the same identifiers
    succeeds for none, reports all of them as failed in the order of the
    request, and leaves the store as the first call left it. *)
Theorem delete_twice store l :
  let first := DictIndex.delete_by_ids (PyList l) store in
  DictIndex.delete_by_ids (PyList l) (final first)
  = Outcome (Ok {| succeeded := []; failed := l |}) (final first) [].
Proof.
  cbv zeta. rewrite (delete_by_ids_trace (PyList l) (of_list l) (final _)) by done.
  apply delete_loop_absent. intros id Hin.
  destruct (delete_loop_trace (of_list l) [] [] store)
    as (deleted & missed & store' & Heq & _ & _ & _ & Hstore').
  rewrite yielded_of_list in Hstore'.
  rewrite (delete_by_ids_trace _ (of_list l)), Heq by done. cbn [final].
  by rewrite Hstore', decide_True.
Qed.

(** X10. [delete_by_ids] is not atomic. When the identifiers are a
    generator that raises, [delete_by_ids] raises that error, the response
    is lost, and the identifiers produced before the error are deleted. *)
Theorem delete_partial_on_error (s : lazy_seq string) e store :
  ending s = Some e →
  result (DictIndex.delete_by_ids (Generator s) store) = Raise e
  ∧ ∀ id, final (DictIndex.delete_by_ids (Generator s) store) !! id
          = if decide (id ∈ yielded s) then None else store !! id.
Proof.
  intros Hend. destruct (delete_loop_trace s [] [] store)
    as (deleted & missed & store' & Heq & _ & _ & _ & Hstore').
  rewrite (delete_by_ids_trace _ s), Heq, Hend by done. by split.
Qed.

(** X11. A missing identifier. When the identifiers before [id] are stored
    and [id] is not, [lazy_get_by_ids] and [lazy_get] still return a lazy
    sequence: it produces the documents of the identifiers before [id], then
    raises KeyError for [id]. [get_by_ids] and [get] raise that KeyError and
    return no document. *)
Theorem get_first_missing store l1 id l2 docs1 :
  Forall2 (λ id doc, store !! id = Some doc) l1 docs1 →
  store !! id = None →
  ∃ s,
    yielded s = docs1 ∧ ending s = Some (KeyError id)
    ∧ lazy_get_by_ids (PyList (l1 ++ id :: l2)) store
      = Outcome (Ok (Generator s)) store []
    ∧ result (get_by_ids (PyList (l1 ++ id :: l2)) store) = Raise (KeyError id)
    ∧ ∀ filters kwargs,
        result (lazy_get (Some (PyList (l1 ++ id :: l2))) filters kwargs store)
        = Ok (Generator s)
        ∧ result (get (Some (PyList (l1 ++ id :: l2))) filters kwargs store)
          = Raise (KeyError id).
Proof.
  intros Hall Hnone.
  destruct (yield_each_missing store l1 id l2 docs1 Hall Hnone) as [Hy He].
  exists (DictIndex.yield_each store (of_list (l1 ++ id :: l2))).
  split; [done|]. split; [done|]. split; [done|].
  assert (result (get_by_ids (PyList (l1 ++ id :: l2)) store) = Raise (KeyError id))
    as Hget.
  { rewrite dict_get_by_ids_eq. simpl. unfold materialize. simpl. by rewrite He. }
  split; [done|]. intros filters kwargs.
  rewrite lazy_get_some, get_some. unfold after_warnings. cbn [result].
  split; [reflexivity | exact Hget].
Qed.

End DictIndexDelete.

(** ** The asynchronous defaults and the truth value of a filter *)

Section ContractAsync.
Context {Document St : Type} `{!Backend Document St}.
Implicit Types (ids : iterable string) (filters : option Filter)
  (kwargs : gmap string kwvalue) (st : St).

(** X12. On a backend whose [lazy_get_by_ids] returns a list or a
    generator, [alazy_get] with identifiers returns that same synchronous
    iterable, and [aget] raises TypeError whatever the filter and the other
    keyword arguments; the warning of the policy is emitted before, and the
    backend state is the one the primitive left. *)
Theorem aget_on_sync_backend ids filters kwargs st it s :
  result (lazy_get_by_ids ids st) = Ok it →
  iter it = Ok s →
  result (alazy_get (Some ids) filters kwargs st) = Ok it
  ∧ result (aget (Some ids) filters kwargs st)
    = Raise (TypeError "'async for' requires an object with __aiter__ method")
  ∧ warned (aget (Some ids) filters kwargs st)
    = policy_warnings filters kwargs ++ warned (lazy_get_by_ids ids st)
  ∧ final (aget (Some ids) filters kwargs st) = final (lazy_get_by_ids ids st).
Proof.
  intros Hit Hs. rewrite alazy_get_some, aget_some.
  unfold after_warnings. cbn [result final warned].
  split; [exact Hit|].
  split; [by eapply aget_by_ids_sync_primitive|].
  unfold aget_by_ids, alazy_get_by_ids, run_in_executor. rewrite bind_lift.
  by cbn [final warned].
Qed.

(** X13. On a backend whose [lazy_get_by_ids] returns an asynchronous
    iterable, it is the other way round: [aget_by_ids] and [aget] return
    the documents of the sequence in order (or its error), and [get_by_ids]
    and [get] raise TypeError. *)
Theorem get_on_async_backend ids st s :
  result (lazy_get_by_ids ids st) = Ok (AsyncGenerator s) →
  result (aget_by_ids ids st) = materialize (Generator s)
  ∧ result (get_by_ids ids st) = Raise (TypeError "object is not iterable")
  ∧ ∀ filters kwargs,
      result (aget (Some ids) filters kwargs st) = materialize (Generator s)
      ∧ result (get (Some ids) filters kwargs st)
        = Raise (TypeError "object is not iterable").
Proof.
  intros Hit.
  assert (result (aget_by_ids ids st) = materialize (Generator s)) as Haget.
  { unfold aget_by_ids, alazy_get_by_ids, run_in_executor. rewrite bind_lift.
    cbn [result]. rewrite Hit. unfold async_for_append, materialize. simpl.
    apply (drain_app s []). }
  assert (result (get_by_ids ids st) = Raise (TypeError "object is not iterable"))
    as Hget.
  { unfold get_by_ids. rewrite bind_lift. cbn [result]. by rewrite Hit. }
  split; [done|]. split; [done|]. intros filters kwargs.
  rewrite aget_some, get_some. unfold after_warnings. by cbn [result].
Qed.

(** X14. An empty filter is no filter. The filters that count as absent
    are exactly the empty dict and the empty list; with one of them every
    default operation does what it does with [filters=None], warnings
    included. A list holding one empty dict is a filter: with identifiers
    and no other keyword argument it alone makes [lazy_get] warn. *)
Theorem empty_filter_is_no_filter ids kwargs st f :
  (filter_truthy f = false ↔ f = FDict ∅ ∨ f = FList [])
  ∧ (filter_truthy f = false →
     lazy_get (Some ids) (Some f) kwargs st = lazy_get (Some ids) None kwargs st
     ∧ alazy_get (Some ids) (Some f) kwargs st = alazy_get (Some ids) None kwargs st
     ∧ get (Some ids) (Some f) kwargs st = get (Some ids) None kwargs st
     ∧ aget (Some ids) (Some f) kwargs st = aget (Some ids) None kwargs st
     ∧ adelete (Some ids) (Some f) kwargs st = adelete (Some ids) None kwargs st)
  ∧ warned (lazy_get (Some ids) (Some (FList [∅])) ∅ st)
    = UserWarning ids_only_message {[ "filters" := KwFilter (FList [∅]) ]}
      :: warned (lazy_get_by_ids ids st).
Proof.
  split; [|split].
  - destruct f as [q|d|l]; simpl.
    + split; [done|by intros [?|?]].
    + rewrite negb_false_iff, Nat.eqb_eq, map_size_empty_iff.
      split; [intros ->; by left | by intros [[= ->]|?]].
    + rewrite negb_false_iff, Nat.eqb_eq, length_zero_iff_nil.
      split; [intros ->; by right | by intros [?|[= ->]]].
  - intros Hf. unfold get, aget, lazy_get, alazy_get, adelete, fold_filters.
    by rewrite Hf.
  - rewrite lazy_get_some. unfold after_warnings, policy_warnings.
    cbn [warned filter_truthy length Nat.eqb negb].
    rewrite (left_id_L ∅ (∪)). rewrite decide_False; [done|].
    intros Hempty. apply (f_equal (lookup "filters")) in Hempty.
    by rewrite lookup_singleton_eq, lookup_empty in Hempty.
Qed.

End ContractAsync.

(** ** The properties above on concrete calls *)

(** Upsert A, B, C as a, b, c into the empty store, then get a, b, c. *)
Lemma upsert_then_get_witness :
  NoDup ["a"; "b"; "c"]
  ∧ get_by_ids (PyList ["a"; "b"; "c"]) store_abc
    = Outcome (Ok ["A"; "B"; "C"]) store_abc [].
Proof.
  assert (NoDup ["a"; "b"; "c"]) as Hnd.
  { apply (bool_decide_unpack _). vm_compute. exact I. }
  split; [exact Hnd|].
  destruct (upsert_then_get uuid4 ["A"; "B"; "C"] (Some ["a"; "b"; "c"])
              (∅ : gmap string string)) as (resp & Hres & Hget).
  vm_compute in Hres. injection Hres as <-. exact (Hget Hnd).
Defined.

(** Two documents upserted under "1": the second stays, "2" is untouched. *)
Lemma upsert_store_witness :
  ["1"; "1"] ≠ []
  ∧ final (DictIndex.upsert uuid4 (PyList ["first"; "second"])
             (Some (PyList ["1"; "1"])) store_12) !! "1" = Some "second"
  ∧ final (DictIndex.upsert uuid4 (PyList ["first"; "second"])
             (Some (PyList ["1"; "1"])) store_12) !! "2" = store_12 !! "2".
Proof.
  split; [discriminate|].
  destruct (upsert_store uuid4 ["first"; "second"] ["1"; "1"] store_12)
    as [Hother Hlast]; [discriminate|].
  split.
  - apply (Hlast 1); [reflexivity | reflexivity | apply not_elem_of_nil].
  - apply Hother. apply (bool_decide_unpack _). vm_compute. exact I.
Defined.

(** The upsert of "one", "two" as "1", "2": nothing failed, "1" is stored. *)
Lemma upsert_reports_stored_witness :
  result (DictIndex.upsert uuid4 (PyList ["one"; "two"]) (Some (PyList ["1"; "2"]))
            (∅ : gmap string string))
  = Ok {| upsert_succeeded := ["1"; "2"]; upsert_failed := [] |}
  ∧ is_Some (store_12 !! "1").
Proof.
  split; [reflexivity|].
  destruct (upsert_reports_stored uuid4 (PyList ["one"; "two"])
              (Some (PyList ["1"; "2"])) (∅ : gmap string string)) as [_ Hok].
  destruct (Hok {| upsert_succeeded := ["1"; "2"]; upsert_failed := [] |} eq_refl)
    as [_ Hstored].
  apply Hstored. apply list_elem_of_here.
Defined.

(** The documents fail after "one": "1" holds it, the call raises. *)
Lemma upsert_partial_on_error_witness :
  ending failing_documents = Some (BackendError "connection lost")
  ∧ length (yielded failing_documents) < length ["1"; "2"]
  ∧ DictIndex.upsert uuid4 (Generator failing_documents) (Some (PyList ["1"; "2"]))
      (∅ : gmap string string)
    = Outcome (Raise (BackendError "connection lost")) {[ "1" := "one" ]} [].
Proof.
  split; [reflexivity|]. split; [simpl; lia|].
  apply (upsert_partial_on_error uuid4 ["1"; "2"] failing_documents
           (BackendError "connection lost") ∅); [reflexivity | simpl; lia].
Defined.

(** Upsert "1" and "2", then [delete_by_ids(["1","1","3"])]. *)
Lemma delete_by_ids_accounts_witness :
  ∃ resp store',
    DictIndex.delete_by_ids (PyList ["1"; "1"; "3"]) store_12
    = Outcome (Ok resp) store' []
    ∧ succeeded resp ++ failed resp ≡ₚ ["1"; "1"; "3"]
    ∧ NoDup (succeeded resp)
    ∧ is_Some (store_12 !! "1").
Proof.
  destruct (delete_by_ids_accounts store_12 ["1"; "1"; "3"])
    as (resp & store' & Heq & Hperm & Hnd & Hstored & _).
  exists resp, store'. split; [exact Heq|]. split; [exact Hperm|].
  split; [exact Hnd|]. apply Hstored.
  vm_compute in Heq. injection Heq as <- _. apply list_elem_of_here.
Defined.

(** Upsert "1" and "2", delete "1" and "3", then get "1" and get "2". *)
Lemma delete_then_get_witness :
  result (get_by_ids (PyList ["1"])
            (final (DictIndex.delete_by_ids (PyList ["1"; "3"]) store_12)))
  = Raise (KeyError "1")
  ∧ result (get_by_ids (PyList ["2"])
              (final (DictIndex.delete_by_ids (PyList ["1"; "3"]) store_12)))
    = Ok ["two"].
Proof.
  destruct (delete_then_get store_12 ["1"; "3"]) as [Hgone Hkept]. split.
  - apply Hgone. apply list_elem_of_here.
  - rewrite Hkept; [reflexivity|].
    intros id ->%list_elem_of_singleton.
    apply (bool_decide_unpack _). vm_compute. exact I.
Defined.

(** The identifiers fail after "1": "1" is deleted, "2" is kept. *)
Lemma delete_partial_on_error_witness :
  ending failing_ids = Some (BackendError "connection lost")
  ∧ result (DictIndex.delete_by_ids (Generator failing_ids) store_12)
    = Raise (BackendError "connection lost")
  ∧ final (DictIndex.delete_by_ids (Generator failing_ids) store_12) !! "1" = None
  ∧ final (DictIndex.delete_by_ids (Generator failing_ids) store_12) !! "2"
    = Some "two".
Proof.
  split; [reflexivity|].
  destruct (delete_partial_on_error failing_ids (BackendError "connection lost")
              store_12 eq_refl) as [Hraise Hstore].
  split; [exact Hraise|]. split.
  - rewrite Hstore. reflexivity.
  - rewrite Hstore. reflexivity.
Defined.

(** Get "1", "3", "2" when "3" is not stored. *)
Lemma get_first_missing_witness :
  store_12 !! "3" = None
  ∧ result (get_by_ids (PyList ["1"; "3"; "2"]) store_12) = Raise (KeyError "3")
  ∧ ∃ s, yielded s = ["one"]
         ∧ result (lazy_get (Some (PyList ["1"; "3"; "2"])) None ∅ store_12)
           = Ok (Generator s).
Proof.
  split; [reflexivity|].
  destruct (get_first_missing store_12 ["1"] "3" ["2"] ["one"])
    as (s & Hy & _ & _ & Hget & Hlazy).
  - repeat constructor.
  - reflexivity.
  - split; [exact Hget|]. exists s. split; [exact Hy|].
    exact (proj1 (Hlazy None ∅)).
Defined.

(** [aget(ids=["x"], filters={"k": "v"})] on [DictIndex]. *)
Lemma aget_on_sync_backend_witness :
  result (lazy_get_by_ids (PyList ["x"]) store_x)
  = Ok (Generator (Yield "X" Stop))
  ∧ result (aget (Some (PyList ["x"])) (Some filter_kv) ∅ store_x)
    = Raise (TypeError "'async for' requires an object with __aiter__ method")
  ∧ warned (aget (Some (PyList ["x"])) (Some filter_kv) ∅ store_x)
    = policy_warnings (Some filter_kv) ∅
      ++ warned (lazy_get_by_ids (PyList ["x"]) store_x).
Proof.
  assert (result (lazy_get_by_ids (PyList ["x"]) store_x)
          = Ok (Generator (Yield "X" Stop))) as Hprimitive by reflexivity.
  split; [exact Hprimitive|].
  destruct (aget_on_sync_backend (PyList ["x"]) (Some filter_kv) ∅ store_x
              (Generator (Yield "X" Stop)) (Yield "X" Stop) Hprimitive eq_refl)
    as (_ & Hraise & Hwarned & _).
  split; [exact Hraise | exact Hwarned].
Defined.

(** [aget_by_ids(["x"])] and [get_by_ids(["x"])] on the backend with an
    asynchronous primitive. *)
Lemma get_on_async_backend_witness :
  result (@lazy_get_by_ids _ _ async_backend (PyList ["x"]) store_x)
  = Ok (AsyncGenerator (Yield "X" Stop))
  ∧ result (@aget_by_ids _ _ async_backend (PyList ["x"]) store_x) = Ok ["X"]
  ∧ result (@get_by_ids _ _ async_backend (PyList ["x"]) store_x)
    = Raise (TypeError "object is not iterable").
Proof.
  assert (result (@lazy_get_by_ids _ _ async_backend (PyList ["x"]) store_x)
          = Ok (AsyncGenerator (Yield "X" Stop))) as Hprimitive by reflexivity.
  split; [exact Hprimitive|].
  destruct (@get_on_async_backend _ _ async_backend (PyList ["x"]) store_x
              (Yield "X" Stop) Hprimitive) as (Haget & Hget & _).
  split; [exact Haget | exact Hget].
Defined.

(** [get(ids=["x"], filters={})] against [get(ids=["x"])]. *)
Lemma empty_filter_is_no_filter_witness :
  filter_truthy (FDict ∅) = false
  ∧ get (Some (PyList ["x"])) (Some (FDict ∅)) ∅ store_x
    = get (Some (PyList ["x"])) None ∅ store_x.
Proof.
  split; [reflexivity|].
  destruct (empty_filter_is_no_filter (PyList ["x"]) ∅ store_x (FDict ∅))
    as (_ & Hsame & _).
  destruct (Hsame eq_refl) as (_ & _ & Hget & _). exact Hget.
Defined.
